(** * inpainting.py: the interactive inpainting tool, embedded and verified

    The development follows [src/inpainting.py].  The class
    [ImageInpaintingTool] keeps one mutable image; its methods build a circular
    mask, select an OpenCV inpainting flag, replace the image by the result of
    [cv2.inpaint], and drive a HighGUI window until ESC is pressed.

    Python statements are embedded in a state-and-exception monad: a method is a
    function from the state it may mutate to an outcome and the state it
    leaves behind, so that the state reached when an exception is raised is
    part of the model. *)

From Stdlib Require Import ZArith Lia Ascii.
From stdpp Require Import base list strings pretty.

Local Open Scope Z_scope.

(** ** Data model *)

(** A colour pixel as OpenCV stores it: three 8-bit channels (B, G, R). *)
Definition Pixel : Type := Z * Z * Z.

(** [np.ndarray] of shape [(rows, cols, 3)], dtype [uint8]: the image.  The
    shape is carried by the array itself, as in numpy. *)
Record Image : Type := mkImage
  { im_rows : nat;
    im_cols : nat;
    im_data : list (list Pixel) }.

(** [np.ndarray] of shape [(rows, cols)], dtype [uint8]: the mask. *)
Record Mask : Type := mkMask
  { mk_rows : nat;
    mk_cols : nat;
    mk_data : list (list Z) }.

(** [image.shape[:2]] *)
Definition shape2 (img : Image) : nat * nat := (im_rows img, im_cols img).

Definition mask_shape (m : Mask) : nat * nat := (mk_rows m, mk_cols m).

(** The buffer of a mask agrees with its shape. *)
Definition mask_wf (m : Mask) : Prop :=
  length (mk_data m) = mk_rows m ∧
  Forall (λ row, length row = mk_cols m) (mk_data m).

(** [mask[i, j]], when [(i, j)] is inside the grid. *)
Definition mask_at (m : Mask) (i j : nat) : option Z :=
  match mk_data m !! i with
  | Some row => row !! j
  | None => None
  end.

(** Number of cells of a row, and of a mask, that hold [v]
    ([np.count_nonzero(mask == v)]). *)
Definition count_row (v : Z) (row : list Z) : nat :=
  length (filter (λ c, c = v) row).

Definition count_value (v : Z) (m : Mask) : nat :=
  sum_list (count_row v <$> mk_data m).

(** ** Exceptions and outcomes *)

(** The exception classes the program can meet, each with the message that
    [str(e)] returns. *)
Inductive exn : Type :=
  | FileNotFoundError (msg : string)
  | ValueError (msg : string)
  | cv2_error (msg : string).

Definition str_exn (e : exn) : string :=
  match e with
  | FileNotFoundError msg => msg
  | ValueError msg => msg
  | cv2_error msg => msg
  end.

(** Outcome of running a piece of code: a value, a raised exception, or
    [Pending] when the code is still waiting for input that the recorded
    input trace does not hold. *)
Inductive res (A : Type) : Type :=
  | Ok (a : A)
  | Raise (e : exn)
  | Pending.
Arguments Ok {A} a.
Arguments Raise {A} e.
Arguments Pending {A}.

(** Code over a mutable state [S]. *)
Definition M (S A : Type) : Type := S → res A * S.

Definition ret {S A} (a : A) : M S A := λ s, (Ok a, s).

Definition bind {S A B} (m : M S A) (k : A → M S B) : M S B :=
  λ s, match m s with
       | (Ok a, s') => k a s'
       | (Raise e, s') => (Raise e, s')
       | (Pending, s') => (Pending, s')
       end.

(** A pure computation that may raise, run inside stateful code. *)
Definition lift_res {S A} (r : res A) : M S A := λ s, (r, s).

(** [try: body except Exception as e: handler(e)] *)
Definition try_except {S A} (body : M S A) (handler : exn → M S A) : M S A :=
  λ s, match body s with
       | (Raise e, s') => handler e s'
       | other => other
       end.

Notation "'let*' x ':=' m 'in' k" := (bind m (λ x, k))
  (at level 10, x name, m at level 100, k at level 200, only parsing).

(** ** numpy *)

Module np.

(** [np.zeros((rows, cols), dtype=np.uint8)] *)
Definition zeros (shape : nat * nat) : Mask :=
  mkMask (fst shape) (snd shape)
         (replicate (fst shape) (replicate (snd shape) 0)).

End np.

(** ** OpenCV: constants and the drawing primitive *)

Module cv2.

(** Values of the constants of the [cv2] module that the program names. *)
Definition INPAINT_NS : Z := 0.
Definition INPAINT_TELEA : Z := 1.
Definition EVENT_LBUTTONDOWN : Z := 1.

(** Conversion of a colour scalar to a [uint8] cell. *)
Definition saturate_u8 (c : Z) : Z := Z.max 0 (Z.min 255 c).

(** Pixel (column [j], row [i]) lies in the closed disc of radius [radius]
    around [center = (cx, cy)]. *)
Definition in_circle (center : Z * Z) (radius : Z) (i j : nat) : bool :=
  bool_decide ((Z.of_nat j - fst center) ^ 2 + (Z.of_nat i - snd center) ^ 2
               ≤ radius ^ 2).

(** Modelled from the spec: [cv2.circle(img, center, radius, color, -1)],
    the drawing primitive of the OpenCV library, which is not part of this
    repository.  It has no error conditions.  With thickness [-1] it draws a
    filled circle of value [color] centered at the coordinate with the given
    radius: every cell of the grid within that distance of the centre
    receives [color]; the circle is clipped to the grid, and all other cells
    keep their value.  No cell lies within a negative distance, so a
    negative radius marks nothing.  The array is updated in place; the
    updated array is the result here. *)
Definition circle_filled (img : Mask) (center : Z * Z) (radius color : Z)
  : res Mask :=
  if bool_decide (0 ≤ radius) then
    Ok (mkMask (mk_rows img) (mk_cols img)
          (imap (λ i row,
                   imap (λ j v, if in_circle center radius i j
                                then saturate_u8 color else v) row)
                (mk_data img)))
  else Ok img.

End cv2.

(** ** The tool and the world it runs in *)

(** The fields of an [ImageInpaintingTool] object. *)
Record ImageInpaintingTool : Type := mkTool
  { image_path : string;
    image : Image }.

(** [_create_mask(self, target_coords, radius)]: reads [self.image] only. *)
Definition _create_mask (self : ImageInpaintingTool)
    (target_coords : Z * Z) (radius : Z) : res Mask :=
  let mask := np.zeros (shape2 (image self)) in
  cv2.circle_filled mask target_coords radius 255.

(** [str.lower()] on the characters the comparison can see: the letters
    [A]..[Z] map to [a]..[z], every other character is kept. *)
Definition lower_ascii (c : ascii) : ascii :=
  let n := nat_of_ascii c in
  if bool_decide (65 ≤ n ≤ 90)%nat then ascii_of_nat (n + 32) else c.

Fixpoint lower (s : string) : string :=
  match s with
  | EmptyString => EmptyString
  | String c s' => String (lower_ascii c) (lower s')
  end.

(** [_get_inpainting_flags(self, method)] *)
Definition _get_inpainting_flags (method : string) : res Z :=
  if bool_decide (lower method = "telea") then Ok cv2.INPAINT_TELEA
  else if bool_decide (lower method = "ns") then Ok cv2.INPAINT_NS
  else Raise (ValueError "Invalid method. Choose 'telea' or 'ns'.").

(** One mouse event as HighGUI hands it to a callback. *)
Record MouseEvent : Type := mkMouseEvent
  { ev_event : Z;
    ev_x : Z;
    ev_y : Z;
    ev_flags : Z }.

(** What one call of [cv2.waitKey] observes: the mouse events HighGUI
    dispatches while it pumps the window's event queue, then the code of the
    key pressed ([-1] when the delay elapses without one). *)
Record Tick : Type := mkTick
  { tick_mouse : list MouseEvent;
    tick_key : Z }.

(** Everything outside the tool object that the program reads or writes. *)
Record World : Type := mkWorld
  { stdout : list string;          (* lines printed so far, oldest first *)
    windows : list string;         (* HighGUI windows that exist *)
    mouse_callback : option string;(* window whose callback is the tool's *)
    shown : option Image;          (* what the last [imshow] displayed *)
    input : list Tick }.           (* user input still to come *)

(** The world after [lines] have been written to standard output. *)
Definition append_stdout (w : World) (lines : list string) : World :=
  mkWorld (stdout w ++ lines) (windows w) (mouse_callback w) (shown w)
          (input w).

(** [print(line)] *)
Definition print (line : string) : M World unit :=
  λ w, (Ok (), append_stdout w [line]).

(** [cv2.namedWindow(name)] *)
Definition namedWindow (name : string) : M World unit :=
  λ w, (Ok (), mkWorld (stdout w)
                       (if bool_decide (name ∈ windows w) then windows w
                        else windows w ++ [name])
                       (mouse_callback w) (shown w) (input w)).

(** [cv2.setMouseCallback(name, self._handle_mouse_click)] *)
Definition setMouseCallback (name : string) : M World unit :=
  λ w, (Ok (), mkWorld (stdout w) (windows w) (Some name) (shown w) (input w)).

(** [cv2.imshow(name, img)] *)
Definition imshow (name : string) (img : Image) : M World unit :=
  λ w, (Ok (), mkWorld (stdout w)
                       (if bool_decide (name ∈ windows w) then windows w
                        else windows w ++ [name])
                       (mouse_callback w) (Some img) (input w)).

(** [cv2.destroyAllWindows()] *)
Definition destroyAllWindows : M World unit :=
  λ w, (Ok (), mkWorld (stdout w) [] None None (input w)).

(** State of a method call: the object [self] and the world. *)
Definition State : Type := ImageInpaintingTool * World.

(** World code run from inside a method. *)
Definition in_world {A} (m : M World A) : M State A :=
  λ st, let '(r, w') := m (snd st) in (r, (fst st, w')).

(** Method code run on a given object, from code that only sees the world.
    The object is dropped with the last reference to it. *)
Definition with_self {A} (self : ImageInpaintingTool) (m : M State A)
    : M World A :=
  λ w, let '(r, st') := m (self, w) in (r, snd st').

(** [self.image] and [self.image = img] *)
Definition get_image : M State Image := λ st, (Ok (image (fst st)), st).

Definition set_image (img : Image) : M State unit :=
  λ st, (Ok (), (mkTool (image_path (fst st)) img, snd st)).

Definition get_self : M State ImageInpaintingTool := λ st, (Ok (fst st), st).

(** [f"{target_coords}"] for a pair of integers. *)
Definition repr_coords (c : Z * Z) : string :=
  "(" +:+ pretty (fst c) +:+ ", " +:+ pretty (snd c) +:+ ")".

Definition inpaint_line (target_coords : Z * Z) (method : string) : string :=
  "Inpainting applied at " +:+ repr_coords target_coords
    +:+ " using '" +:+ method +:+ "' method.".

Definition received_line (click_coords : Z * Z) : string :=
  "Coordinates received: " +:+ repr_coords click_coords.

(** The parts of the host system whose results the program only passes on:
    the file system, the image decoder and the inpainting algorithm.
    [cv2.inpaint] is given an 8-bit three-channel image and an 8-bit mask of
    the same height and width, on which it returns an image. *)
Record Host : Type := mkHost
  { (* [os.path.exists(path)] *)
    os_path_exists : string → bool;
    (* [cv2.imread(path)]: [None] when the file cannot be read or decoded *)
    cv2_imread : string → option Image;
    (* [cv2.inpaint(src, mask, inpaintRadius, flags)] *)
    cv2_inpaint : Image → Mask → Z → Z → Image }.

Section Program.

Variable host : Host.

(** [_load_image(self)], for [self.image_path = path]. *)
Definition _load_image (path : string) : res Image :=
  if negb (os_path_exists host path) then
    Raise (FileNotFoundError
             ("Error: The image path '" +:+ path +:+ "' does not exist."))
  else
    match cv2_imread host path with
    | None =>
        Raise (ValueError
          "Error: Could not load the image. Ensure the file is a valid image format.")
    | Some img => Ok img
    end.

(** [ImageInpaintingTool(image_path)] *)
Definition __init__ (path : string) : M World ImageInpaintingTool :=
  let* img := lift_res (_load_image path) in
  ret (mkTool path img).

(** [apply_inpainting(self, target_coords, radius=10, method='telea')] *)
Definition apply_inpainting (target_coords : Z * Z) (radius : Z)
    (method : string) : M State unit :=
  let* self := get_self in
  let* mask := lift_res (_create_mask self target_coords radius) in
  let* flags := lift_res (_get_inpainting_flags method) in
  let* img := get_image in
  let* _ := set_image (cv2_inpaint host img mask radius flags) in
  in_world (print (inpaint_line target_coords method)).

Definition default_radius : Z := 10.
Definition default_method : string := "telea".

(** [_handle_mouse_click(self, event, x, y, flags, param)] *)
Definition _handle_mouse_click (event x y flags : Z) (param : unit)
    : M State unit :=
  if bool_decide (event = cv2.EVENT_LBUTTONDOWN) then
    let click_coords := (x, y) in
    let* _ := in_world (print (received_line click_coords)) in
    apply_inpainting click_coords default_radius default_method
  else ret ().

(** [_initialize_interactive_session(self)] *)
Definition _initialize_interactive_session : M State unit :=
  let* _ := in_world (namedWindow "Image Inpainting") in
  in_world (setMouseCallback "Image Inpainting").

(** HighGUI delivering queued mouse events to the registered callback. *)
Fixpoint dispatch (events : list MouseEvent) : M State unit :=
  match events with
  | [] => ret ()
  | e :: rest =>
      let* _ := _handle_mouse_click (ev_event e) (ev_x e) (ev_y e)
                                    (ev_flags e) () in
      dispatch rest
  end.

(** [cv2.waitKey(delay)]: takes the next tick of input, dispatches its
    mouse events when a callback is registered, and returns its key code.
    With no input left the call has not returned yet. *)
Definition waitKey (delay : Z) : M State Z :=
  λ st,
    let w := snd st in
    match input w with
    | [] => (Pending, st)
    | t :: rest =>
        let w' := mkWorld (stdout w) (windows w) (mouse_callback w)
                          (shown w) rest in
        (let* _ := (if mouse_callback w is Some _
                    then dispatch (tick_mouse t) else ret ()) in
         ret (tick_key t)) (fst st, w')
    end.

(** One pass through the body of [while True]; [true] means [break]. *)
Definition loop_body : M State bool :=
  let* img := get_image in
  let* _ := in_world (imshow "Image Inpainting" img) in
  let* k := waitKey 1 in
  let key := Z.land k 255 in
  ret (bool_decide (key = 27)).

(** [while True: body], unrolled at most [fuel] times. *)
Fixpoint while_true (fuel : nat) (body : M State bool) : M State unit :=
  match fuel with
  | O => λ st, (Pending, st)
  | S fuel' =>
      let* stop := body in
      if stop then ret () else while_true fuel' body
  end.

(** [run_interactive_session(self)].  Every pass of the loop takes one tick
    of input, so one more pass than there are ticks is all the loop can
    make. *)
Definition run_interactive_session : M State unit :=
  let* _ := _initialize_interactive_session in
  let* _ := in_world (print "Press ESC to exit.") in
  let* _ := (λ st, while_true (S (length (input (snd st)))) loop_body st) in
  let* _ := in_world destroyAllWindows in
  in_world (print "Interactive session ended.").

(** The body of the [try] block of the script. *)
Definition main_body (path : string) : M World unit :=
  let* inpainting_tool := __init__ path in
  let* _ := print "Image loaded successfully." in
  with_self inpainting_tool run_interactive_session.

(** [try: body except Exception as e: print(e)] *)
Definition guarded (body : M World unit) : M World unit :=
  try_except body (λ e, print (str_exn e)).

(** The script run as [__main__]. *)
Definition main : M World unit :=
  let image_path := "data/example.png" in
  guarded (main_body image_path).

End Program.

(** ** Vocabulary of the statements *)

(** An all-black image, as a test fixture. *)
Definition black_image (rows cols : nat) : Image :=
  mkImage rows cols (replicate rows (replicate cols (0, 0, 0))).

(** A world in which nothing has happened yet, with the user input to come. *)
Definition fresh_world (ticks : list Tick) : World :=
  mkWorld [] [] None None ticks.

(** A method string is recognized when it is a case variant of one of the
    two method names. *)
Definition recognized (method : string) : Prop :=
  lower method = "telea" ∨ lower method = "ns".

(** The lines a batch of mouse events leaves on the console. *)
Definition click_lines (events : list MouseEvent) : list string :=
  flat_map
    (λ e, if bool_decide (ev_event e = cv2.EVENT_LBUTTONDOWN)
          then [received_line (ev_x e, ev_y e);
                inpaint_line (ev_x e, ev_y e) "telea"]
          else [])
    events.

Definition is_esc (t : Tick) : bool :=
  bool_decide (Z.land (tick_key t) 255 = 27).

(** The console lines of the polling loop over an input trace, up to and
    including the tick that brings ESC. *)
Fixpoint session_lines (ticks : list Tick) : list string :=
  match ticks with
  | [] => []
  | t :: rest =>
      click_lines (tick_mouse t) ++ (if is_esc t then [] else session_lines rest)
  end.

(** Whether ESC arrives within the trace, and the input left after it. *)
Fixpoint session_done (ticks : list Tick) : bool :=
  match ticks with
  | [] => false
  | t :: rest => if is_esc t then true else session_done rest
  end.

Fixpoint session_rest (ticks : list Tick) : list Tick :=
  match ticks with
  | [] => []
  | t :: rest => if is_esc t then rest else session_rest rest
  end.

(** The console lines the interface description enumerates: the load
    notice, an inpaint notice, the two session notices, or the message of a
    caught error. *)
Definition enumerated_line (l : string) : bool :=
  bool_decide (l = "Image loaded successfully.")
  || String.prefix "Inpainting applied at " l
  || bool_decide (l = "Press ESC to exit.")
  || bool_decide (l = "Interactive session ended.")
  || String.prefix "Error: " l
  || bool_decide (l = "Invalid method. Choose 'telea' or 'ns'.").

(** The lines the program does print: the enumerated ones and the
    coordinates notice of the click handler. *)
Definition console_line (l : string) : bool :=
  enumerated_line l || String.prefix "Coordinates received: " l.

(** A host for worked examples: whether the path exists and what the decoder
    returns are given; its [inpaint] hands the source image back. *)
Definition example_host (present : bool) (decoded : option Image) : Host :=
  mkHost (λ _, present) (λ _, decoded) (λ src _ _ _, src).

(** The closing notice, printed once the loop has seen ESC. *)
Definition ended_lines (ticks : list Tick) : list string :=
  if session_done ticks then ["Interactive session ended."] else [].

(** The console lines of a whole run of the script over an input trace. *)
Definition main_lines (host : Host) (ticks : list Tick) : list string :=
  match _load_image host "data/example.png" with
  | Ok _ =>
      ["Image loaded successfully."; "Press ESC to exit."]
        ++ session_lines ticks ++ ended_lines ticks
  | Raise e => [str_exn e]
  | Pending => []
  end.

(** ** Vocabulary of the further properties *)

(** The mask a click with the default radius builds over [img]. *)
Definition default_mask (img : Image) (click_coords : Z * Z) : Mask :=
  match _create_mask (mkTool "" img) click_coords 10 with
  | Ok mask => mask
  | _ => np.zeros (shape2 img)
  end.

(** The image one mouse event leaves behind. *)
Definition click_image (host : Host) (img : Image) (e : MouseEvent) : Image :=
  if bool_decide (ev_event e = cv2.EVENT_LBUTTONDOWN)
  then cv2_inpaint host img (default_mask img (ev_x e, ev_y e)) 10
         cv2.INPAINT_TELEA
  else img.

(** The image the polling loop leaves behind over an input trace, up to and
    including the tick that brings ESC. *)
Fixpoint session_image (host : Host) (img : Image) (ticks : list Tick)
    : Image :=
  match ticks with
  | [] => img
  | t :: rest =>
      let img' := foldl (click_image host) img (tick_mouse t) in
      if is_esc t then img' else session_image host img' rest
  end.

(** The windows that exist once [name] has been shown or created. *)
Definition with_window (name : string) (ws : list string) : list string :=
  if bool_decide (name ∈ ws) then ws else ws ++ [name].

(** The world with its pending input replaced. *)
Definition set_input (w : World) (ticks : list Tick) : World :=
  mkWorld (stdout w) (windows w) (mouse_callback w) (shown w) ticks.

(** * Verification *)

(** ** Sequencing *)

Lemma bind_ok {S A B} (m : M S A) (k : A → M S B) (s : S) (a : A) (s' : S) :
  m s = (Ok a, s') → bind m k s = k a s'.
Proof. intros H. unfold bind. by rewrite H. Qed.

Lemma bind_pending {S A B} (m : M S A) (k : A → M S B) (s s' : S) :
  m s = (Pending, s') → bind m k s = (Pending, s').
Proof. intros H. unfold bind. by rewrite H. Qed.

(** ** The mask grid *)

Lemma mask_at_zeros (h w i j : nat) :
  (i < h)%nat → (j < w)%nat → mask_at (np.zeros (h, w)) i j = Some 0.
Proof.
  intros Hi Hj. unfold mask_at, np.zeros; simpl.
  rewrite lookup_replicate_2 by done. by rewrite lookup_replicate_2.
Qed.

Lemma zeros_wf (shape : nat * nat) : mask_wf (np.zeros shape).
Proof.
  split; simpl.
  - by rewrite length_replicate.
  - apply Forall_replicate. by rewrite length_replicate.
Qed.

Lemma circle_filled_ok (img : Mask) (center : Z * Z) (radius color : Z) :
  0 ≤ radius →
  ∃ m, cv2.circle_filled img center radius color = Ok m
       ∧ mask_shape m = mask_shape img
       ∧ ∀ i j, mask_at m i j =
           (λ v, if cv2.in_circle center radius i j
                 then cv2.saturate_u8 color else v) <$> mask_at img i j.
Proof.
  intros Hr. unfold cv2.circle_filled. rewrite bool_decide_true by done.
  eexists; split; [done|]. split; [done|].
  intros i j. unfold mask_at; simpl.
  rewrite list_lookup_imap.
  destruct (mk_data img !! i) as [row|]; simpl; [|done].
  by rewrite list_lookup_imap.
Qed.

Lemma circle_filled_wf (img m : Mask) (center : Z * Z) (radius color : Z) :
  mask_wf img → cv2.circle_filled img center radius color = Ok m → mask_wf m.
Proof.
  intros [Hlen Hrows]. unfold cv2.circle_filled.
  case_bool_decide; intros [= <-]; [|done]. split; simpl.
  - by rewrite length_imap.
  - apply Forall_forall. intros row Hin.
    apply list_elem_of_lookup in Hin as [i Hi].
    rewrite list_lookup_imap in Hi.
    destruct (mk_data img !! i) as [row0|] eqn:E; simplify_eq/=.
    rewrite length_imap.
    eapply Forall_lookup_1 in Hrows; eauto.
Qed.

Lemma in_circle_mono (center : Z * Z) (r1 r2 : Z) (i j : nat) :
  0 ≤ r1 ≤ r2 →
  cv2.in_circle center r1 i j = true → cv2.in_circle center r2 i j = true.
Proof.
  intros Hr. unfold cv2.in_circle. rewrite !bool_decide_eq_true.
  intros H. assert (r1 ^ 2 ≤ r2 ^ 2) by (apply Z.pow_le_mono_l; lia). lia.
Qed.

Lemma count_row_draw_mono (p q : nat → bool) (c : Z) (row : list Z) :
  (∀ j, p j = true → q j = true) →
  (count_row c (imap (λ j v, if p j then c else v) row)
   ≤ count_row c (imap (λ j v, if q j then c else v) row))%nat.
Proof.
  revert p q. induction row as [|v row IH]; intros p q Hpq; [done|].
  rewrite !imap_cons. unfold count_row in *. rewrite !filter_cons.
  specialize (IH (p ∘ S) (q ∘ S) (λ j, Hpq (S j))).
  unfold compose in *. cbv beta in *.
  destruct (p 0%nat) eqn:Ep.
  - rewrite (Hpq _ Ep). rewrite !decide_True by done. simpl. lia.
  - destruct (q 0%nat); repeat case_decide; simpl; lia.
Qed.

Lemma count_value_draw_mono (p q : nat → nat → bool) (c : Z)
    (rows : list (list Z)) :
  (∀ i j, p i j = true → q i j = true) →
  (sum_list (count_row c <$>
       imap (λ i row, imap (λ j v, if p i j then c else v) row) rows)
   ≤ sum_list (count_row c <$>
       imap (λ i row, imap (λ j v, if q i j then c else v) row) rows))%nat.
Proof.
  revert p q. induction rows as [|row rows IH]; intros p q Hpq; [done|].
  rewrite !imap_cons, !fmap_cons. simpl.
  specialize (IH (p ∘ S) (q ∘ S) (λ i j, Hpq (S i) j)).
  pose proof (count_row_draw_mono (p 0%nat) (q 0%nat) c row (Hpq 0%nat)).
  unfold compose in *. cbv beta in *. lia.
Qed.

Lemma create_mask_ok (self : ImageInpaintingTool) (c : Z * Z) (r : Z) :
  0 ≤ r → ∃ mask, _create_mask self c r = Ok mask.
Proof.
  intros Hr. unfold _create_mask, cv2.circle_filled.
  rewrite bool_decide_true by done. eauto.
Qed.

(** ** Method names and console lines *)

Lemma recognized_literals : Forall recognized ["telea"; "TELEA"; "ns"; "NS"].
Proof. repeat constructor; (by left) || (by right). Qed.

Lemma get_flags_recognized (method : string) :
  recognized method →
  ∃ flags, _get_inpainting_flags method = Ok flags
           ∧ (flags = cv2.INPAINT_TELEA ∨ flags = cv2.INPAINT_NS).
Proof.
  intros [H|H]; unfold _get_inpainting_flags.
  - rewrite bool_decide_true by done. eauto.
  - case_bool_decide; [eauto|]. rewrite bool_decide_true by done. eauto.
Qed.

Lemma get_flags_unrecognized (method : string) :
  ¬ recognized method →
  _get_inpainting_flags method
  = Raise (ValueError "Invalid method. Choose 'telea' or 'ns'.").
Proof.
  intros H. unfold _get_inpainting_flags, recognized in *.
  rewrite !bool_decide_false by tauto. done.
Qed.

Lemma string_app_assoc (a b c : string) : (a +:+ b) +:+ c = a +:+ (b +:+ c).
Proof.
  induction a as [|ch a IH]; [reflexivity|].
  change (String ch ((a +:+ b) +:+ c) = String ch (a +:+ (b +:+ c))).
  by rewrite IH.
Qed.

Lemma inpaint_line_prefix (c : Z * Z) (method : string) :
  String.prefix "Inpainting applied at " (inpaint_line c method) = true.
Proof. reflexivity. Qed.

Lemma received_line_prefix (c : Z * Z) :
  String.prefix "Coordinates received: " (received_line c) = true.
Proof. reflexivity. Qed.

Lemma received_line_not_inpaint (c : Z * Z) :
  String.prefix "Inpainting applied at " (received_line c) = false.
Proof. reflexivity. Qed.

Lemma append_stdout_nil (w : World) : append_stdout w [] = w.
Proof. destruct w. unfold append_stdout; simpl. by rewrite app_nil_r. Qed.

Lemma append_stdout_app (w : World) (a b : list string) :
  append_stdout (append_stdout w a) b = append_stdout w (a ++ b).
Proof. unfold append_stdout; simpl. by rewrite app_assoc. Qed.

Lemma click_lines_cons (e : MouseEvent) (events : list MouseEvent) :
  click_lines (e :: events)
  = (if bool_decide (ev_event e = cv2.EVENT_LBUTTONDOWN)
     then [received_line (ev_x e, ev_y e); inpaint_line (ev_x e, ev_y e) "telea"]
     else []) ++ click_lines events.
Proof. reflexivity. Qed.

Lemma console_line_click_lines (events : list MouseEvent) :
  Forall (λ l, console_line l = true) (click_lines events).
Proof.
  induction events as [|e events IH]; [constructor|].
  rewrite click_lines_cons. apply Forall_app. split; [|done].
  case_bool_decide; repeat constructor.
Qed.

Lemma console_line_session_lines (ticks : list Tick) :
  Forall (λ l, console_line l = true) (session_lines ticks).
Proof.
  induction ticks as [|t ticks IH]; [constructor|]. simpl.
  apply Forall_app. split; [apply console_line_click_lines|].
  by destruct (is_esc t).
Qed.

(** ** The methods, the polling loop and the script *)

Section Proofs.

Variable host : Host.

Lemma apply_inpainting_ok (self : ImageInpaintingTool) (w : World)
    (c : Z * Z) (r : Z) (method : string) (mask : Mask) (flags : Z) :
  _create_mask self c r = Ok mask →
  _get_inpainting_flags method = Ok flags →
  apply_inpainting host c r method (self, w)
  = (Ok (), (mkTool (image_path self)
                    (cv2_inpaint host (image self) mask r flags),
             append_stdout w [inpaint_line c method])).
Proof.
  intros Hm Hf. unfold apply_inpainting, bind, get_self, lift_res; simpl.
  rewrite Hm, Hf. done.
Qed.

Lemma apply_inpainting_bad_method (self : ImageInpaintingTool) (w : World)
    (c : Z * Z) (r : Z) (method : string) :
  0 ≤ r → ¬ recognized method →
  apply_inpainting host c r method (self, w)
  = (Raise (ValueError "Invalid method. Choose 'telea' or 'ns'."), (self, w)).
Proof.
  intros Hr Hm. destruct (create_mask_ok self c r Hr) as [mask Hmask].
  unfold apply_inpainting, bind, get_self, lift_res; simpl.
  rewrite Hmask, (get_flags_unrecognized _ Hm). done.
Qed.

Lemma handle_left_click (self : ImageInpaintingTool) (w : World)
    (x y flags : Z) (param : unit) :
  ∃ mask,
    _create_mask self (x, y) 10 = Ok mask
    ∧ _handle_mouse_click host cv2.EVENT_LBUTTONDOWN x y flags param (self, w)
      = (Ok (), (mkTool (image_path self)
                   (cv2_inpaint host (image self) mask 10 cv2.INPAINT_TELEA),
                 append_stdout w [received_line (x, y);
                                  inpaint_line (x, y) "telea"])).
Proof.
  destruct (create_mask_ok self (x, y) 10 ltac:(lia)) as [mask Hmask].
  exists mask. split; [done|].
  unfold _handle_mouse_click. rewrite bool_decide_true by done.
  unfold bind at 1. unfold in_world at 1. simpl.
  rewrite (apply_inpainting_ok _ _ _ _ _ mask cv2.INPAINT_TELEA); [|done..].
  by rewrite append_stdout_app.
Qed.

Lemma handle_other_event (event x y flags : Z) (param : unit) (st : State) :
  event ≠ cv2.EVENT_LBUTTONDOWN →
  _handle_mouse_click host event x y flags param st = (Ok (), st).
Proof.
  intros H. unfold _handle_mouse_click. by rewrite bool_decide_false.
Qed.

Lemma dispatch_spec (events : list MouseEvent) :
  ∀ (self : ImageInpaintingTool) (w : World),
  ∃ self',
    dispatch host events (self, w)
    = (Ok (), (self', append_stdout w (click_lines events)))
    ∧ image_path self' = image_path self.
Proof.
  induction events as [|e events IH]; intros self w.
  - exists self. simpl. by rewrite append_stdout_nil.
  - rewrite click_lines_cons. simpl. unfold bind.
    destruct (decide (ev_event e = cv2.EVENT_LBUTTONDOWN)) as [He|He].
    + rewrite bool_decide_true by done. rewrite He.
      destruct (handle_left_click self w (ev_x e) (ev_y e) (ev_flags e) ())
        as (mask & _ & ->).
      edestruct IH as (self' & -> & Hp). exists self'.
      by rewrite append_stdout_app.
    + rewrite bool_decide_false by done. rewrite handle_other_event by done.
      destruct (IH self w) as (self' & -> & Hp). by exists self'.
Qed.

Lemma loop_body_step (self : ImageInpaintingTool) (w : World)
    (t : Tick) (rest : list Tick) (cb : string) :
  input w = t :: rest →
  mouse_callback w = Some cb →
  ∃ self' w',
    loop_body host (self, w) = (Ok (is_esc t), (self', w'))
    ∧ stdout w' = stdout w ++ click_lines (tick_mouse t)
    ∧ input w' = rest
    ∧ mouse_callback w' = Some cb
    ∧ image_path self' = image_path self.
Proof.
  intros Hin Hcb. unfold loop_body, bind, get_image, in_world, waitKey; simpl.
  rewrite Hin, Hcb. unfold bind.
  edestruct (dispatch_spec (tick_mouse t) self) as (self' & -> & Hp).
  simpl. eexists _, _. split; [done|]. simpl. done.
Qed.

Lemma loop_body_pending (self : ImageInpaintingTool) (w : World) :
  input w = [] →
  ∃ w', loop_body host (self, w) = (Pending, (self, w'))
        ∧ stdout w' = stdout w ∧ input w' = [].
Proof.
  intros Hin. unfold loop_body, bind, get_image, in_world, waitKey; simpl.
  rewrite Hin. eexists. split; [done|]. done.
Qed.

Lemma while_true_spec (ticks : list Tick) :
  ∀ (fuel : nat) (self : ImageInpaintingTool) (w : World) (cb : string),
  input w = ticks →
  mouse_callback w = Some cb →
  (length ticks < fuel)%nat →
  ∃ self' w',
    while_true fuel (loop_body host) (self, w)
    = (if session_done ticks then Ok () else Pending, (self', w'))
    ∧ stdout w' = stdout w ++ session_lines ticks
    ∧ input w' = session_rest ticks
    ∧ image_path self' = image_path self.
Proof.
  induction ticks as [|t rest IH]; intros fuel self w cb Hin Hcb Hfuel;
    (destruct fuel as [|fuel]; [simpl in Hfuel; lia|]); simpl.
  - destruct (loop_body_pending self w Hin) as (w' & Hb & Hout & Hin').
    unfold bind. rewrite Hb. exists self, w'.
    by rewrite Hout, app_nil_r.
  - destruct (loop_body_step self w t rest cb Hin Hcb)
      as (self1 & w1 & Hb & Hout & Hin1 & Hcb1 & Hp1).
    unfold bind. rewrite Hb. destruct (is_esc t).
    + exists self1, w1. by rewrite app_nil_r.
    + destruct (IH fuel self1 w1 cb Hin1 Hcb1 ltac:(simpl in Hfuel; lia))
        as (self2 & w2 & -> & Hout2 & Hin2 & Hp2).
      exists self2, w2. rewrite Hout2, Hout, app_assoc. split; [done|].
      split; [done|]. split; [done|]. congruence.
Qed.

End Proofs.

Lemma run_interactive_session_spec (host : Host)
    (self : ImageInpaintingTool) (w : World) :
  ∃ self' w',
    run_interactive_session host (self, w)
    = (if session_done (input w) then Ok () else Pending, (self', w'))
    ∧ stdout w' = stdout w ++ ["Press ESC to exit."]
                    ++ session_lines (input w) ++ ended_lines (input w)
    ∧ input w' = session_rest (input w).
Proof.
  pose (w1 := append_stdout
                (mkWorld (stdout w)
                   (if bool_decide ("Image Inpainting" ∈ windows w)
                    then windows w else windows w ++ ["Image Inpainting"])
                   (Some "Image Inpainting") (shown w) (input w))
                ["Press ESC to exit."]).
  destruct (while_true_spec host (input w) (S (length (input w))) self w1
              "Image Inpainting" eq_refl eq_refl ltac:(lia))
    as (self' & w' & Hloop & Hout & Hin & _).
  unfold run_interactive_session.
  rewrite (bind_ok _ _ (self, w) ()
             (self, mkWorld (stdout w)
                      (if bool_decide ("Image Inpainting" ∈ windows w)
                       then windows w else windows w ++ ["Image Inpainting"])
                      (Some "Image Inpainting") (shown w) (input w)))
    by reflexivity.
  rewrite (bind_ok _ _ _ () (self, w1)) by reflexivity.
  unfold ended_lines. destruct (session_done (input w)).
  - rewrite (bind_ok _ _ _ () (self', w')) by exact Hloop.
    eexists _, _. split; [reflexivity|]. simpl. rewrite Hout. simpl.
    split; [|done]. by rewrite <- !app_assoc.
  - rewrite (bind_pending _ _ _ (self', w')) by exact Hloop.
    exists self', w'. split; [done|]. rewrite Hout. simpl.
    split; [|done]. by rewrite app_nil_r, <- app_assoc.
Qed.

Lemma guarded_catches (body : M World unit) (w w' : World) (e : exn) :
  body w = (Raise e, w') →
  guarded body w = (Ok (), append_stdout w' [str_exn e]).
Proof. intros H. unfold guarded, try_except. by rewrite H. Qed.

Lemma guarded_never_raises (body : M World unit) (w : World) (e : exn) :
  fst (guarded body w) ≠ Raise e.
Proof.
  unfold guarded, try_except. by destruct (body w) as [[[]|e'|] w'].
Qed.

Lemma main_body_load_failure (host : Host) (path : string) (w : World)
    (e : exn) :
  _load_image host path = Raise e →
  main_body host path w = (Raise e, w).
Proof.
  intros H. unfold main_body, __init__, bind, lift_res. by rewrite H.
Qed.

Lemma main_body_loaded (host : Host) (path : string) (w : World)
    (img : Image) :
  _load_image host path = Ok img →
  ∃ w',
    main_body host path w
    = (if session_done (input w) then Ok () else Pending, w')
    ∧ stdout w' = stdout w
                    ++ ["Image loaded successfully."; "Press ESC to exit."]
                    ++ session_lines (input w) ++ ended_lines (input w).
Proof.
  intros Hload. unfold main_body.
  rewrite (bind_ok _ _ w (mkTool path img) w)
    by (unfold __init__, bind, lift_res; by rewrite Hload).
  rewrite (bind_ok _ _ w () (append_stdout w ["Image loaded successfully."]))
    by reflexivity.
  destruct (run_interactive_session_spec host (mkTool path img)
              (append_stdout w ["Image loaded successfully."]))
    as (self' & w' & Hrun & Hout & _).
  exists w'. unfold with_self. rewrite Hrun. split; [done|].
  rewrite Hout. simpl. by rewrite <- !app_assoc.
Qed.

Lemma load_error_console_line (host : Host) (path : string) (e : exn) :
  _load_image host path = Raise e → console_line (str_exn e) = true.
Proof.
  unfold _load_image.
  destruct (os_path_exists host path); simpl;
    [destruct (cv2_imread host path)|]; intros [= <-]; reflexivity.
Qed.

(** * The claims *)

(** C1: [apply_inpainting] with a method that is a case variant of "telea" or
    "ns" (so with "telea", "TELEA", "ns" and "NS") succeeds: it replaces the
    image by the result of [cv2.inpaint] and prints its notice.  With any
    other method string it raises [ValueError] with the invalid-method
    message, and the tool and the world are exactly as before the call.  The
    radius is a non-negative integer, as the data model has it. *)
Theorem apply_inpainting_method_dispatch
    (host : Host) (self : ImageInpaintingTool) (w : World)
    (target_coords : Z * Z) (radius : Z) :
  0 ≤ radius →
  Forall recognized ["telea"; "TELEA"; "ns"; "NS"]
  ∧ (∀ method, recognized method →
       ∃ mask flags,
         _create_mask self target_coords radius = Ok mask
         ∧ _get_inpainting_flags method = Ok flags
         ∧ apply_inpainting host target_coords radius method (self, w)
           = (Ok (), (mkTool (image_path self)
                        (cv2_inpaint host (image self) mask radius flags),
                      append_stdout w [inpaint_line target_coords method])))
  ∧ (∀ method, ¬ recognized method →
       apply_inpainting host target_coords radius method (self, w)
       = (Raise (ValueError "Invalid method. Choose 'telea' or 'ns'."),
          (self, w))).
Proof.
  intros Hr. split; [apply recognized_literals|]. split.
  - intros method Hm.
    destruct (create_mask_ok self target_coords radius Hr) as [mask Hmask].
    destruct (get_flags_recognized method Hm) as (flags & Hflags & _).
    exists mask, flags. split; [done|]. split; [done|].
    by apply apply_inpainting_ok.
  - intros method Hm. by apply apply_inpainting_bad_method.
Qed.

(** C1 on a 100x100 black image: "TELEA" succeeds, "blur" is refused and
    leaves everything as it was. *)
Lemma apply_inpainting_method_dispatch_witness :
  fst (apply_inpainting (example_host true None) (50, 50) 10 "TELEA"
         (mkTool "data/example.png" (black_image 100 100), fresh_world []))
  = Ok ()
  ∧ apply_inpainting (example_host true None) (50, 50) 10 "blur"
      (mkTool "data/example.png" (black_image 100 100), fresh_world [])
    = (Raise (ValueError "Invalid method. Choose 'telea' or 'ns'."),
       (mkTool "data/example.png" (black_image 100 100), fresh_world [])).
Proof.
  destruct (apply_inpainting_method_dispatch (example_host true None)
              (mkTool "data/example.png" (black_image 100 100))
              (fresh_world []) (50, 50) 10 ltac:(lia)) as (_ & Hok & Hbad).
  split.
  - destruct (Hok "TELEA" ltac:(by left)) as (mask & flags & _ & _ & ->).
    reflexivity.
  - apply Hbad. intros [H|H]; vm_compute in H; discriminate H.
Defined.

(** C2: loading raises [FileNotFoundError] exactly when the path does not
    exist, raises [ValueError] exactly when it exists but [cv2.imread] cannot
    decode it, and returns the decoded grid exactly when it exists and
    decodes; the constructor then owns that grid, with its dimensions, and a
    failed load leaves no tool behind. *)
Theorem load_image_outcomes (host : Host) (path : string) (w : World) :
  (os_path_exists host path = false
   ↔ ∃ msg, _load_image host path = Raise (FileNotFoundError msg))
  ∧ (os_path_exists host path = true ∧ cv2_imread host path = None
     ↔ ∃ msg, _load_image host path = Raise (ValueError msg))
  ∧ (∀ img, os_path_exists host path = true ∧ cv2_imread host path = Some img
            ↔ _load_image host path = Ok img)
  ∧ (∀ img, _load_image host path = Ok img →
            __init__ host path w = (Ok (mkTool path img), w)
            ∧ shape2 (image (mkTool path img)) = (im_rows img, im_cols img))
  ∧ (∀ e, _load_image host path = Raise e →
          __init__ host path w = (Raise e, w)).
Proof.
  assert (Hinit : ∀ r, (let* img := lift_res r in ret (mkTool path img)) w
                       = match r with
                         | Ok img => (Ok (mkTool path img), w)
                         | Raise e => (Raise e, w)
                         | Pending => (Pending, w)
                         end) by (by intros [img|e|]).
  unfold __init__. rewrite Hinit. unfold _load_image.
  destruct (os_path_exists host path); simpl;
    [destruct (cv2_imread host path) as [img0|]|];
    repeat split; intros;
    repeat match goal with
           | H : ∃ _, _ |- _ => destruct H
           | H : _ ∧ _ |- _ => destruct H
           end;
    try congruence; eauto.
Qed.

(** C3: for a non-negative radius the mask builder returns a single-channel
    grid with the height and width of the current image, built on a grid of
    zeros, in which a cell holds 255 when it lies in the disc of the given
    radius around the coordinate and 0 otherwise; so every cell is 0 or
    255. *)
Theorem create_mask_shape_and_values
    (self : ImageInpaintingTool) (target_coords : Z * Z) (radius : Z) :
  0 ≤ radius →
  ∃ mask,
    _create_mask self target_coords radius = Ok mask
    ∧ mask_shape mask = shape2 (image self)
    ∧ mask_wf mask
    ∧ (∀ i j, (i < im_rows (image self))%nat → (j < im_cols (image self))%nat →
         mask_at (np.zeros (shape2 (image self))) i j = Some 0
         ∧ mask_at mask i j =
             Some (if cv2.in_circle target_coords radius i j then 255 else 0))
    ∧ (∀ i j v, mask_at mask i j = Some v → v = 0 ∨ v = 255).
Proof.
  intros Hr. unfold _create_mask.
  destruct (circle_filled_ok (np.zeros (shape2 (image self)))
              target_coords radius 255 Hr) as (mask & Hm & Hshape & Hat).
  exists mask. split; [done|]. split; [done|].
  split; [by eapply circle_filled_wf; [apply zeros_wf|]|].
  assert (Hcell : ∀ i j, (i < im_rows (image self))%nat →
                         (j < im_cols (image self))%nat →
            mask_at mask i j =
              Some (if cv2.in_circle target_coords radius i j then 255 else 0)).
  { intros i j Hi Hj. rewrite Hat. unfold shape2.
    by rewrite mask_at_zeros. }
  split.
  - intros i j Hi Hj. split; [by apply mask_at_zeros|by apply Hcell].
  - intros i j v Hv.
    destruct (decide (i < im_rows (image self))%nat) as [Hi|Hi];
      [destruct (decide (j < im_cols (image self))%nat) as [Hj|Hj]|].
    + rewrite Hcell in Hv by done.
      destruct (cv2.in_circle _ _ _ _); simplify_eq; auto.
    + rewrite Hat in Hv. unfold mask_at, np.zeros, shape2 in Hv; simpl in Hv.
      destruct (replicate _ _ !! i) as [row|] eqn:E; [|done].
      apply lookup_replicate in E as [-> _].
      rewrite (proj1 (lookup_replicate_None _ _ _)) in Hv by lia. done.
    + rewrite Hat in Hv. unfold mask_at, np.zeros, shape2 in Hv; simpl in Hv.
      rewrite (proj1 (lookup_replicate_None _ _ _)) in Hv by lia. done.
Qed.

(** C3 on a 3x3 image, radius 1 around the centre: the plus-shaped mask. *)
Lemma create_mask_shape_and_values_witness :
  ∃ mask,
    _create_mask (mkTool "a.png" (black_image 3 3)) (1, 1) 1 = Ok mask
    ∧ mask_shape mask = (3%nat, 3%nat)
    ∧ mk_data mask = [[0; 255; 0]; [255; 255; 255]; [0; 255; 0]].
Proof.
  destruct (create_mask_shape_and_values
              (mkTool "a.png" (black_image 3 3)) (1, 1) 1 ltac:(lia))
    as (mask & Hm & Hs & _).
  exists mask. split; [exact Hm|]. split; [exact Hs|].
  vm_compute in Hm. by injection Hm as <-.
Defined.

(** C4: for a fixed coordinate and image, the number of 255-valued cells of
    the mask does not decrease when the non-negative radius grows. *)
Theorem create_mask_count_monotone
    (self : ImageInpaintingTool) (target_coords : Z * Z) (r1 r2 : Z) :
  0 ≤ r1 → r1 ≤ r2 →
  ∃ m1 m2,
    _create_mask self target_coords r1 = Ok m1
    ∧ _create_mask self target_coords r2 = Ok m2
    ∧ (count_value 255 m1 ≤ count_value 255 m2)%nat.
Proof.
  intros H1 H12. unfold _create_mask, cv2.circle_filled.
  rewrite !bool_decide_true by lia.
  do 2 eexists. split; [done|]. split; [done|].
  unfold count_value; simpl.
  apply count_value_draw_mono. intros i j. apply in_circle_mono. lia.
Qed.

(** C4 on a 5x5 image, radii 1 and 2 around the centre. *)
Lemma create_mask_count_monotone_witness :
  ∃ m1 m2,
    _create_mask (mkTool "a.png" (black_image 5 5)) (2, 2) 1 = Ok m1
    ∧ _create_mask (mkTool "a.png" (black_image 5 5)) (2, 2) 2 = Ok m2
    ∧ (count_value 255 m1 ≤ count_value 255 m2)%nat.
Proof.
  apply (create_mask_count_monotone
           (mkTool "a.png" (black_image 5 5)) (2, 2) 1 2); lia.
Defined.

(** C5: on a left-button press at [(x, y)] the handler calls
    [apply_inpainting] with exactly [(x, y)], radius 10 and method "telea";
    the call succeeds, and of the lines the click prints exactly one is the
    notice "Inpainting applied at (x, y) using 'telea' method.". *)
Theorem left_click_forwards
    (host : Host) (self : ImageInpaintingTool) (w : World)
    (event x y flags : Z) (param : unit) :
  event = cv2.EVENT_LBUTTONDOWN →
  _handle_mouse_click host event x y flags param (self, w)
  = apply_inpainting host (x, y) 10 "telea"
      (self, append_stdout w [received_line (x, y)])
  ∧ (∃ mask,
       _create_mask self (x, y) 10 = Ok mask
       ∧ _handle_mouse_click host event x y flags param (self, w)
         = (Ok (), (mkTool (image_path self)
                      (cv2_inpaint host (image self) mask 10 cv2.INPAINT_TELEA),
                    append_stdout w [received_line (x, y);
                                     inpaint_line (x, y) "telea"])))
  ∧ inpaint_line (x, y) "telea"
    = "Inpainting applied at (" +:+ pretty x +:+ ", " +:+ pretty y
        +:+ ") using 'telea' method."
  ∧ length (filter (λ l, String.prefix "Inpainting applied at " l = true)
              [received_line (x, y); inpaint_line (x, y) "telea"]) = 1%nat.
Proof.
  intros ->. split; [|split; [|split]].
  - unfold _handle_mouse_click. by rewrite bool_decide_true.
  - apply handle_left_click.
  - unfold inpaint_line, repr_coords; simpl.
    by rewrite !string_app_assoc.
  - rewrite filter_cons, decide_False
      by (rewrite received_line_not_inpaint; discriminate).
    rewrite filter_cons, decide_True by apply inpaint_line_prefix.
    reflexivity.
Qed.

(** C5 on a 100x100 black image, clicked at (50, 50). *)
Lemma left_click_forwards_witness :
  stdout (snd (snd (_handle_mouse_click (example_host true None) 1 50 50 0 ()
                      (mkTool "data/example.png" (black_image 100 100),
                       fresh_world []))))
  = ["Coordinates received: (50, 50)";
     "Inpainting applied at (50, 50) using 'telea' method."].
Proof.
  destruct (left_click_forwards (example_host true None)
              (mkTool "data/example.png" (black_image 100 100))
              (fresh_world []) 1 50 50 0 () eq_refl)
    as (_ & (mask & _ & ->) & _ & _).
  reflexivity.
Defined.

(** C6: when the first key the session polls is ESC (its low byte is 27) and
    no mouse event came before it, the session ends normally: all windows and
    the callback are released, the console gains "Press ESC to exit." and
    "Interactive session ended." and no inpaint notice, the image is
    untouched, and the input that follows is left unread. *)
Theorem esc_first_terminates
    (host : Host) (self : ImageInpaintingTool) (w : World)
    (key : Z) (rest : list Tick) :
  Z.land key 255 = 27 →
  input w = mkTick [] key :: rest →
  run_interactive_session host (self, w)
  = (Ok (), (self,
             mkWorld (stdout w ++ ["Press ESC to exit.";
                                   "Interactive session ended."])
                     [] None None rest)).
Proof.
  intros Hkey Hin.
  unfold run_interactive_session, _initialize_interactive_session, bind,
    in_world; simpl.
  rewrite Hin; simpl.
  unfold loop_body, bind, get_image, in_world, waitKey; simpl.
  rewrite bool_decide_true by done. simpl.
  unfold append_stdout; simpl. rewrite <- app_assoc. by destruct self.
Qed.

(** C6 with a click queued behind ESC: the click is never processed. *)
Lemma esc_first_terminates_witness :
  run_interactive_session (example_host true None)
    (mkTool "data/example.png" (black_image 4 4),
     fresh_world [mkTick [] 27; mkTick [mkMouseEvent 1 2 2 0] (-1)])
  = (Ok (), (mkTool "data/example.png" (black_image 4 4),
             mkWorld ["Press ESC to exit."; "Interactive session ended."]
                     [] None None [mkTick [mkMouseEvent 1 2 2 0] (-1)])).
Proof.
  apply (esc_first_terminates (example_host true None)
           (mkTool "data/example.png" (black_image 4 4))
           (fresh_world [mkTick [] 27; mkTick [mkMouseEvent 1 2 2 0] (-1)])
           27 [mkTick [mkMouseEvent 1 2 2 0] (-1)]); reflexivity.
Defined.

(** C7: the script is its body under [try ... except Exception]; whatever
    exception the body raises (any of the three error kinds) is caught and
    its message printed, so the script never ends with an exception.  A
    missing path and an undecodable file each end the run normally with their
    message on the console. *)
Theorem main_catches_failures (host : Host) (w : World) :
  main host = guarded (main_body host "data/example.png")
  ∧ (∀ (body : M World unit) e w',
       body w = (Raise e, w') →
       guarded body w = (Ok (), append_stdout w' [str_exn e]))
  ∧ (∀ e, fst (main host w) ≠ Raise e)
  ∧ (os_path_exists host "data/example.png" = false →
     main host w
     = (Ok (), append_stdout w
          ["Error: The image path 'data/example.png' does not exist."]))
  ∧ (os_path_exists host "data/example.png" = true →
     cv2_imread host "data/example.png" = None →
     main host w
     = (Ok (), append_stdout w
          ["Error: Could not load the image. Ensure the file is a valid image format."])).
Proof.
  split; [done|]. split; [intros body e w'; apply guarded_catches|].
  split; [intros e; apply guarded_never_raises|]. split.
  - intros Hex. unfold main.
    apply (guarded_catches _ w w
             (FileNotFoundError
                "Error: The image path 'data/example.png' does not exist.")).
    apply main_body_load_failure. unfold _load_image. by rewrite Hex.
  - intros Hex Hrd. unfold main.
    apply (guarded_catches _ w w
             (ValueError
                "Error: Could not load the image. Ensure the file is a valid image format.")).
    apply main_body_load_failure. unfold _load_image. by rewrite Hex, Hrd.
Qed.

(** C7 for a missing file and for a file that does not decode. *)
Lemma main_catches_failures_witness :
  main (example_host false None) (fresh_world [])
  = (Ok (), mkWorld ["Error: The image path 'data/example.png' does not exist."]
                    [] None None [])
  ∧ main (example_host true None) (fresh_world [])
    = (Ok (), mkWorld
         ["Error: Could not load the image. Ensure the file is a valid image format."]
         [] None None []).
Proof.
  destruct (main_catches_failures (example_host false None) (fresh_world []))
    as (_ & _ & _ & Hmissing & _).
  destruct (main_catches_failures (example_host true None) (fresh_world []))
    as (_ & _ & _ & _ & Hbad).
  split; [apply Hmissing | apply Hbad]; reflexivity.
Defined.

(** C8, as stated, fails: a click at (50, 50) followed by ESC prints
    "Coordinates received: (50, 50)", which is none of the enumerated
    lines. *)
Lemma console_prints_coordinates_line :
  stdout (snd (main (example_host true (Some (black_image 100 100)))
                 (fresh_world [mkTick [mkMouseEvent 1 50 50 0] (-1);
                               mkTick [] 27])))
  = ["Image loaded successfully."; "Press ESC to exit.";
     "Coordinates received: (50, 50)";
     "Inpainting applied at (50, 50) using 'telea' method.";
     "Interactive session ended."]
  ∧ forallb enumerated_line
      (stdout (snd (main (example_host true (Some (black_image 100 100)))
                      (fresh_world [mkTick [mkMouseEvent 1 50 50 0] (-1);
                                    mkTick [] 27]))))
    = false.
Proof. split; vm_compute; reflexivity. Qed.

(** C8, amended: the console output of a run is exactly the load notice,
    the session-start notice, for every left-button press a coordinates
    notice followed by its inpaint notice, and the session-end notice once
    ESC has come; or, when loading fails, the message of the caught error.
    Every line is an enumerated one or a coordinates notice. *)
Theorem console_output_lines (host : Host) (w : World) :
  stdout (snd (main host w)) = stdout w ++ main_lines host (input w)
  ∧ Forall (λ l, console_line l = true) (main_lines host (input w)).
Proof.
  unfold main_lines. split.
  - unfold main.
    destruct (_load_image host "data/example.png") as [img|e|] eqn:Hload.
    + destruct (main_body_loaded host "data/example.png" w img Hload)
        as (w' & Hbody & Hout).
      unfold guarded, try_except. rewrite Hbody.
      by destruct (session_done (input w)).
    + by rewrite (guarded_catches _ w w e)
        by (by apply main_body_load_failure).
    + exfalso. unfold _load_image in Hload.
      destruct (os_path_exists host _); simpl in Hload; [|done].
      by destruct (cv2_imread host _).
  - destruct (_load_image host "data/example.png") as [img|e|] eqn:Hload.
    + repeat apply Forall_cons_2; try reflexivity.
      apply Forall_app. split; [apply console_line_session_lines|].
      unfold ended_lines. destruct (session_done _); repeat constructor.
    + repeat constructor. by eapply load_error_console_line.
    + constructor.
Qed.



(** C10: a mouse event that is not a left-button press leaves the tool and
    the world as they are: no inpainting, no console output. *)
Theorem other_mouse_events_ignored
    (host : Host) (event x y flags : Z) (param : unit) (st : State) :
  event ≠ cv2.EVENT_LBUTTONDOWN →
  _handle_mouse_click host event x y flags param st = (Ok (), st).
Proof. apply handle_other_event. Qed.

(** C10 for a mouse move ([cv2.EVENT_MOUSEMOVE] is 0). *)
Lemma other_mouse_events_ignored_witness :
  _handle_mouse_click (example_host true None) 0 12 34 0 ()
    (mkTool "data/example.png" (black_image 4 4), fresh_world [])
  = (Ok (), (mkTool "data/example.png" (black_image 4 4), fresh_world [])).
Proof.
  apply (other_mouse_events_ignored (example_host true None) 0 12 34 0 ()).
  unfold cv2.EVENT_LBUTTONDOWN. lia.
Defined.

(** * Further properties of the code *)

(** ** Auxiliary facts *)

Lemma lower_ascii_idemp (c : ascii) : lower_ascii (lower_ascii c) = lower_ascii c.
Proof.
  destruct c as [[] [] [] [] [] [] [] []]; reflexivity.
Qed.

Lemma lower_idemp (s : string) : lower (lower s) = lower s.
Proof.
  induction s as [|c s IH]; [done|]. simpl. by rewrite lower_ascii_idemp, IH.
Qed.

Lemma lower_length (s : string) : String.length (lower s) = String.length s.
Proof. induction s as [|c s IH]; [done|]. simpl. by rewrite IH. Qed.

Lemma get_flags_inv (method : string) (flags : Z) :
  _get_inpainting_flags method = Ok flags →
  (lower method = "telea" ∧ flags = 1) ∨ (lower method = "ns" ∧ flags = 0).
Proof.
  unfold _get_inpainting_flags, cv2.INPAINT_TELEA, cv2.INPAINT_NS.
  repeat case_bool_decide; intros [= <-]; auto.
Qed.

Lemma create_mask_returns (self : ImageInpaintingTool) (c : Z * Z) (r : Z) :
  ∃ mask, _create_mask self c r = Ok mask.
Proof. unfold _create_mask, cv2.circle_filled. case_bool_decide; eauto. Qed.

Lemma default_mask_eq (self : ImageInpaintingTool) (c : Z * Z) :
  _create_mask self c 10 = Ok (default_mask (image self) c).
Proof. reflexivity. Qed.

Lemma handle_left_click_exact (host : Host) (self : ImageInpaintingTool)
    (w : World) (e : MouseEvent) :
  _handle_mouse_click host (ev_event e) (ev_x e) (ev_y e) (ev_flags e) ()
    (self, w)
  = (Ok (), (mkTool (image_path self) (click_image host (image self) e),
             append_stdout w (click_lines [e]))).
Proof.
  unfold click_image. rewrite click_lines_cons. simpl. rewrite app_nil_r.
  case_bool_decide as He.
  - rewrite He.
    destruct (handle_left_click host self w (ev_x e) (ev_y e) (ev_flags e) ())
      as (mask & Hmask & ->).
    rewrite default_mask_eq in Hmask. by injection Hmask as <-.
  - rewrite handle_other_event by done.
    rewrite append_stdout_nil. by destruct self.
Qed.

Lemma dispatch_exact (host : Host) (events : list MouseEvent)
    (self : ImageInpaintingTool) (w : World) :
  dispatch host events (self, w)
  = (Ok (), (mkTool (image_path self)
               (foldl (click_image host) (image self) events),
             append_stdout w (click_lines events))).
Proof.
  revert self w. induction events as [|e events IH]; intros self w.
  - simpl. rewrite append_stdout_nil. by destruct self.
  - change (dispatch host (e :: events)) with
      (bind (_handle_mouse_click host (ev_event e) (ev_x e) (ev_y e)
               (ev_flags e) ()) (λ _, dispatch host events)).
    rewrite (bind_ok _ _ _ _ _ (handle_left_click_exact host self w e)).
    rewrite IH, append_stdout_app.
    rewrite (click_lines_cons e events), (click_lines_cons e []).
    change (click_lines []) with (@nil string). by rewrite app_nil_r.
Qed.

Lemma waitKey_tick (host : Host) (self : ImageInpaintingTool) (w : World)
    (t : Tick) (rest : list Tick) (delay : Z) :
  input w = t :: rest →
  waitKey host delay (self, w)
  = (Ok (tick_key t),
     (mkTool (image_path self)
        (if mouse_callback w is Some _
         then foldl (click_image host) (image self) (tick_mouse t)
         else image self),
      mkWorld (stdout w ++ (if mouse_callback w is Some _
                            then click_lines (tick_mouse t) else []))
              (windows w) (mouse_callback w) (shown w) rest)).
Proof.
  intros Hin. unfold waitKey. simpl. rewrite Hin.
  destruct (mouse_callback w) as [cb|] eqn:Hcb.
  - rewrite (bind_ok _ _ _ _ _ (dispatch_exact host _ _ _)). done.
  - unfold bind, ret. simpl. rewrite app_nil_r. by destruct self.
Qed.

Lemma loop_body_tick (host : Host) (self : ImageInpaintingTool) (w : World)
    (t : Tick) (rest : list Tick) (cb : string) :
  input w = t :: rest →
  mouse_callback w = Some cb →
  "Image Inpainting" ∈ windows w →
  loop_body host (self, w)
  = (Ok (is_esc t),
     (mkTool (image_path self)
        (foldl (click_image host) (image self) (tick_mouse t)),
      mkWorld (stdout w ++ click_lines (tick_mouse t)) (windows w) (Some cb)
              (Some (image self)) rest)).
Proof.
  intros Hin Hcb Hwin. unfold loop_body.
  rewrite (bind_ok _ _ _ (image self) (self, w)) by reflexivity.
  rewrite (bind_ok _ _ _ ()
             (self, mkWorld (stdout w) (windows w) (mouse_callback w)
                      (Some (image self)) (input w)))
    by (unfold in_world, imshow; simpl; by rewrite bool_decide_true).
  rewrite (bind_ok _ _ _ _ _
             (waitKey_tick host self
                (mkWorld (stdout w) (windows w) (mouse_callback w)
                   (Some (image self)) (input w)) t rest 1 Hin)).
  simpl. by rewrite Hcb.
Qed.

Lemma loop_body_no_input (host : Host) (self : ImageInpaintingTool)
    (w : World) :
  input w = [] →
  "Image Inpainting" ∈ windows w →
  loop_body host (self, w)
  = (Pending, (self, mkWorld (stdout w) (windows w) (mouse_callback w)
                       (Some (image self)) [])).
Proof.
  intros Hin Hwin. unfold loop_body.
  rewrite (bind_ok _ _ _ (image self) (self, w)) by reflexivity.
  rewrite (bind_ok _ _ _ ()
             (self, mkWorld (stdout w) (windows w) (mouse_callback w)
                      (Some (image self)) (input w)))
    by (unfold in_world, imshow; simpl; by rewrite bool_decide_true).
  apply bind_pending. unfold waitKey. simpl. by rewrite Hin.
Qed.

Lemma while_true_exact (host : Host) (ticks : list Tick) :
  ∀ (fuel : nat) (self : ImageInpaintingTool) (w : World) (cb : string),
  input w = ticks →
  mouse_callback w = Some cb →
  "Image Inpainting" ∈ windows w →
  (length ticks < fuel)%nat →
  ∃ sh,
    while_true fuel (loop_body host) (self, w)
    = (if session_done ticks then Ok () else Pending,
       (mkTool (image_path self) (session_image host (image self) ticks),
        mkWorld (stdout w ++ session_lines ticks) (windows w) (Some cb) sh
                (session_rest ticks)))
    ∧ (session_done ticks = false →
       sh = Some (session_image host (image self) ticks)).
Proof.
  induction ticks as [|t rest IH]; intros fuel self w cb Hin Hcb Hwin Hfuel;
    (destruct fuel as [|fuel]; [simpl in Hfuel; lia|]).
  - exists (Some (image self)). split; [|done].
    change (while_true (S fuel) (loop_body host)) with
      (bind (loop_body host)
         (λ stop : bool, if stop then ret () else while_true fuel (loop_body host))).
    rewrite (bind_pending _ _ _ _ (loop_body_no_input host self w Hin Hwin)).
    simpl. rewrite app_nil_r, Hcb. by destruct self.
  - change (while_true (S fuel) (loop_body host)) with
      (bind (loop_body host)
         (λ stop : bool, if stop then ret () else while_true fuel (loop_body host))).
    rewrite (bind_ok _ _ _ _ _ (loop_body_tick host self w t rest cb Hin Hcb Hwin)).
    simpl. destruct (is_esc t).
    + exists (Some (image self)). split; [|done]. unfold ret.
      by rewrite app_nil_r.
    + edestruct (IH fuel) as (sh & -> & Hsh);
        [reflexivity|reflexivity|exact Hwin|simpl in Hfuel; lia|].
      exists sh. simpl. split; [|exact Hsh]. by rewrite app_assoc.
Qed.

Lemma with_window_elem (name : string) (ws : list string) :
  name ∈ with_window name ws.
Proof.
  unfold with_window. case_bool_decide; [done|].
  apply elem_of_app. right. by apply list_elem_of_singleton.
Qed.

Lemma run_interactive_session_exact (host : Host)
    (self : ImageInpaintingTool) (w : World) :
  ∃ sh,
    run_interactive_session host (self, w)
    = (if session_done (input w)
       then (Ok (),
             (mkTool (image_path self)
                (session_image host (image self) (input w)),
              mkWorld (stdout w ++ ["Press ESC to exit."]
                         ++ session_lines (input w)
                         ++ ["Interactive session ended."])
                      [] None None (session_rest (input w))))
       else (Pending,
             (mkTool (image_path self)
                (session_image host (image self) (input w)),
              mkWorld (stdout w ++ ["Press ESC to exit."]
                         ++ session_lines (input w))
                      (with_window "Image Inpainting" (windows w))
                      (Some "Image Inpainting") sh (session_rest (input w)))))
    ∧ (session_done (input w) = false →
       sh = Some (session_image host (image self) (input w))).
Proof.
  pose (w1 := append_stdout
                (mkWorld (stdout w)
                   (with_window "Image Inpainting" (windows w))
                   (Some "Image Inpainting") (shown w) (input w))
                ["Press ESC to exit."]).
  destruct (while_true_exact host (input w) (S (length (input w))) self w1
              "Image Inpainting" eq_refl eq_refl
              (with_window_elem _ _) ltac:(lia))
    as (sh & Hloop & Hsh).
  exists sh. split; [|exact Hsh].
  unfold run_interactive_session.
  rewrite (bind_ok _ _ (self, w) ()
             (self, mkWorld (stdout w)
                      (with_window "Image Inpainting" (windows w))
                      (Some "Image Inpainting") (shown w) (input w)))
    by reflexivity.
  rewrite (bind_ok _ _ _ () (self, w1)) by reflexivity.
  destruct (session_done (input w)).
  - erewrite (bind_ok _ _ (self, w1)); [|exact Hloop].
    unfold bind, in_world; simpl.
    unfold append_stdout; simpl. by rewrite <- !app_assoc.
  - erewrite (bind_pending _ _ (self, w1)); [|exact Hloop].
    simpl. by rewrite <- !app_assoc.
Qed.

Lemma land_255_mod (k : Z) : Z.land k 255 = k mod 256.
Proof. change 255 with (Z.ones 8). by rewrite Z.land_ones. Qed.

Lemma is_esc_mod (t : Tick) : is_esc t = bool_decide (tick_key t mod 256 = 27).
Proof. unfold is_esc. by rewrite land_255_mod. Qed.

Lemma session_done_Exists (ticks : list Tick) :
  session_done ticks = true
  ↔ Exists (λ t, tick_key t mod 256 = 27) ticks.
Proof.
  induction ticks as [|t ticks IH]; simpl.
  - split; [done|]. by intros ?%Exists_nil.
  - rewrite Exists_cons, <- IH. unfold is_esc.
    case_bool_decide as H; rewrite land_255_mod in H; intuition.
Qed.

Lemma session_done_false_Forall (ticks : list Tick) :
  session_done ticks = false
  ↔ Forall (λ t, tick_key t mod 256 ≠ 27) ticks.
Proof.
  rewrite <- not_true_iff_false, session_done_Exists.
  rewrite <- Forall_Exists_neg. done.
Qed.

Lemma session_rest_not_done (ticks : list Tick) :
  session_done ticks = false → session_rest ticks = [].
Proof.
  induction ticks as [|t ticks IH]; simpl; [done|]. by destruct (is_esc t).
Qed.

Lemma session_prefix (host : Host) (pre : list Tick) (t : Tick)
    (post : list Tick) (img : Image) :
  Forall (λ t, tick_key t mod 256 ≠ 27) pre →
  tick_key t mod 256 = 27 →
  session_done (pre ++ t :: post) = true
  ∧ session_rest (pre ++ t :: post) = post
  ∧ session_lines (pre ++ t :: post) = session_lines (pre ++ [t])
  ∧ session_image host img (pre ++ t :: post)
    = session_image host img (pre ++ [t]).
Proof.
  intros Hpre Ht. revert img.
  induction Hpre as [|p pre Hp Hpre IH]; intros img; simpl.
  - rewrite is_esc_mod, bool_decide_true by done. done.
  - rewrite is_esc_mod, bool_decide_false by done.
    destruct (IH (foldl (click_image host) img (tick_mouse p)))
      as (-> & -> & -> & ->). done.
Qed.

Lemma click_image_shape (host : Host) (img : Image) (e : MouseEvent) :
  (∀ src mask r flags, shape2 (cv2_inpaint host src mask r flags) = shape2 src) →
  shape2 (click_image host img e) = shape2 img.
Proof. intros H. unfold click_image. by case_bool_decide. Qed.

Lemma clicks_image_shape (host : Host) (events : list MouseEvent) (img : Image) :
  (∀ src mask r flags, shape2 (cv2_inpaint host src mask r flags) = shape2 src) →
  shape2 (foldl (click_image host) img events) = shape2 img.
Proof.
  intros H. revert img. induction events as [|e events IH]; intros img; [done|].
  simpl. by rewrite IH, click_image_shape.
Qed.

Lemma session_image_shape (host : Host) (ticks : list Tick) (img : Image) :
  (∀ src mask r flags, shape2 (cv2_inpaint host src mask r flags) = shape2 src) →
  shape2 (session_image host img ticks) = shape2 img.
Proof.
  intros H. revert img. induction ticks as [|t ticks IH]; intros img; [done|].
  simpl. destruct (is_esc t); [|rewrite IH]; by apply clicks_image_shape.
Qed.

Lemma count_row_elem (v : Z) (row : list Z) :
  v ∈ row → (1 ≤ count_row v row)%nat.
Proof.
  intros Hin. unfold count_row.
  assert (Hf : v ∈ filter (λ c, c = v) row) by (by apply list_elem_of_filter).
  destruct (filter (λ c, c = v) row); [by apply elem_of_nil in Hf|simpl; lia].
Qed.

Lemma count_rows_elem (v : Z) (row : list Z) (rows : list (list Z)) :
  row ∈ rows → (count_row v row ≤ sum_list (count_row v <$> rows))%nat.
Proof.
  intros Hin.
  apply (sum_list_with_in (count_row v row) id (count_row v <$> rows)).
  by apply list_elem_of_fmap_2.
Qed.

Lemma count_value_at (m : Mask) (i j : nat) (v : Z) :
  mask_at m i j = Some v → (1 ≤ count_value v m)%nat.
Proof.
  unfold mask_at, count_value.
  destruct (mk_data m !! i) as [row|] eqn:Hrow; [|done]. intros Hv.
  apply list_elem_of_lookup_2 in Hrow. apply list_elem_of_lookup_2 in Hv.
  pose proof (count_row_elem v row Hv).
  pose proof (count_rows_elem v row (mk_data m) Hrow). lia.
Qed.

Lemma count_value_zeros (shape : nat * nat) :
  count_value 255 (np.zeros shape) = 0%nat.
Proof.
  destruct shape as [h w]. unfold count_value, np.zeros.
  cbn [mk_data fst snd].
  assert (Hrow : count_row 255 (replicate w 0) = 0%nat).
  { unfold count_row. induction w as [|w IH]; [done|].
    cbn [replicate]. rewrite filter_cons, decide_False by done. exact IH. }
  rewrite fmap_replicate, Hrow, sum_list_replicate. lia.
Qed.

(** ** The properties *)

(** X1: [_get_inpainting_flags] returns a flag exactly in two cases: flag 1
    ([cv2.INPAINT_TELEA]) when the method lower-cases to "telea", and flag 0
    ([cv2.INPAINT_NS]) when it lower-cases to "ns". *)
Theorem get_inpainting_flags_values (method : string) (flags : Z) :
  _get_inpainting_flags method = Ok flags
  ↔ (lower method = "telea" ∧ flags = 1) ∨ (lower method = "ns" ∧ flags = 0).
Proof.
  split; [apply get_flags_inv|].
  unfold _get_inpainting_flags, cv2.INPAINT_TELEA, cv2.INPAINT_NS.
  intros [[H ->]|[H ->]]; rewrite H; reflexivity.
Qed.

(** X2: the outcome of [_get_inpainting_flags] depends on the method only
    through its lower-casing: two methods with the same lower-casing get the
    same outcome, and a method gets the outcome of its lower-cased form. *)
Theorem get_inpainting_flags_case_insensitive (m1 m2 : string) :
  lower m1 = lower m2 →
  _get_inpainting_flags m1 = _get_inpainting_flags m2
  ∧ _get_inpainting_flags (lower m1) = _get_inpainting_flags m1.
Proof.
  intros H. unfold _get_inpainting_flags. by rewrite lower_idemp, H.
Qed.

Lemma get_inpainting_flags_case_insensitive_witness :
  _get_inpainting_flags "TeLeA" = _get_inpainting_flags "tElEa"
  ∧ _get_inpainting_flags (lower "TeLeA") = _get_inpainting_flags "TeLeA".
Proof.
  apply (get_inpainting_flags_case_insensitive "TeLeA" "tElEa"). reflexivity.
Defined.

(** X3: the method is compared whole, without trimming: an accepted method
    has exactly five characters or exactly two. *)
Theorem get_inpainting_flags_no_trimming (method : string) (flags : Z) :
  _get_inpainting_flags method = Ok flags →
  String.length method = 5%nat ∨ String.length method = 2%nat.
Proof.
  intros H. apply get_flags_inv in H as [[H _]|[H _]];
    rewrite <- (lower_length method), H; auto.
Qed.

Lemma get_inpainting_flags_no_trimming_witness :
  String.length "NS" = 5%nat ∨ String.length "NS" = 2%nat.
Proof.
  apply (get_inpainting_flags_no_trimming "NS" 0). reflexivity.
Defined.

(** X4: [apply_inpainting] is all-or-nothing.  When it raises, the tool and
    the world are exactly as they were before the call.  When it returns,
    the method was a recognized one, the image has been replaced by the
    result of [cv2.inpaint] on the previous image with the mask and the flag
    of the call, and one line has been printed.  It never waits for input. *)
Theorem apply_inpainting_all_or_nothing
    (host : Host) (target_coords : Z * Z) (radius : Z) (method : string)
    (self : ImageInpaintingTool) (w : World) (r : res unit) (st' : State) :
  apply_inpainting host target_coords radius method (self, w) = (r, st') →
  match r with
  | Ok _ =>
      recognized method
      ∧ ∃ mask flags,
          _create_mask self target_coords radius = Ok mask
          ∧ _get_inpainting_flags method = Ok flags
          ∧ st' = (mkTool (image_path self)
                     (cv2_inpaint host (image self) mask radius flags),
                   append_stdout w [inpaint_line target_coords method])
  | Raise _ => st' = (self, w)
  | Pending => False
  end.
Proof.
  destruct (create_mask_returns self target_coords radius) as [mask Hmask].
  unfold apply_inpainting, bind, get_self, lift_res; simpl. rewrite Hmask.
  destruct (_get_inpainting_flags method) as [flags|e|] eqn:Hflags; simpl.
  - intros [= <- <-]. split.
    + apply get_flags_inv in Hflags as [[H _]|[H _]]; [by left|by right].
    + by exists mask, flags.
  - by intros [= <- <-].
  - unfold _get_inpainting_flags in Hflags. by repeat case_bool_decide.
Qed.

Lemma apply_inpainting_all_or_nothing_witness :
  (recognized "ns"
   ∧ ∃ mask flags,
       _create_mask (mkTool "a.png" (black_image 4 4)) (2, 2) 10 = Ok mask
       ∧ _get_inpainting_flags "ns" = Ok flags
       ∧ (mkTool "a.png" (black_image 4 4),
          append_stdout (fresh_world []) [inpaint_line (2, 2) "ns"])
         = (mkTool "a.png"
              (cv2_inpaint (example_host true None) (black_image 4 4) mask 10
                 flags),
            append_stdout (fresh_world []) [inpaint_line (2, 2) "ns"]))
  ∧ (mkTool "a.png" (black_image 4 4), fresh_world [])
    = (mkTool "a.png" (black_image 4 4), fresh_world []).
Proof.
  split.
  - apply (apply_inpainting_all_or_nothing (example_host true None) (2, 2) 10
             "ns" (mkTool "a.png" (black_image 4 4)) (fresh_world [])
             (Ok ())
             (mkTool "a.png" (black_image 4 4),
              append_stdout (fresh_world []) [inpaint_line (2, 2) "ns"])).
    reflexivity.
  - apply (apply_inpainting_all_or_nothing (example_host true None) (2, 2) 10
             "blur" (mkTool "a.png" (black_image 4 4)) (fresh_world [])
             (Raise (ValueError "Invalid method. Choose 'telea' or 'ns'."))
             (mkTool "a.png" (black_image 4 4), fresh_world [])).
    reflexivity.
Defined.

(** X5: a batch of mouse events delivered to the handler never raises; each
    left-button press inpaints the image the previous events left, in the
    order of delivery, with the mask built over that image, and the console
    gains the lines of the presses in that order.  The path is kept. *)
Theorem dispatch_folds_clicks (host : Host) (events : list MouseEvent)
    (self : ImageInpaintingTool) (w : World) :
  dispatch host events (self, w)
  = (Ok (), (mkTool (image_path self)
               (foldl (click_image host) (image self) events),
             append_stdout w (click_lines events))).
Proof. apply dispatch_exact. Qed.

(** X6: the interactive session returns exactly when some polled key has low
    byte 27, and then every window and the callback are released; when no
    such key is in the input it consumes all of it and is left polling, with
    the window and the callback in place and the window showing the tool's
    current image.  It never raises. *)
Theorem session_outcome (host : Host) (self : ImageInpaintingTool)
    (w : World) :
  (Exists (λ t, tick_key t mod 256 = 27) (input w) →
   ∃ self' w',
     run_interactive_session host (self, w) = (Ok (), (self', w'))
     ∧ windows w' = [] ∧ mouse_callback w' = None ∧ shown w' = None
     ∧ image_path self' = image_path self)
  ∧ (Forall (λ t, tick_key t mod 256 ≠ 27) (input w) →
     ∃ self' w',
       run_interactive_session host (self, w) = (Pending, (self', w'))
       ∧ input w' = []
       ∧ "Image Inpainting" ∈ windows w'
       ∧ mouse_callback w' = Some "Image Inpainting"
       ∧ shown w' = Some (image self')
       ∧ image_path self' = image_path self).
Proof.
  destruct (run_interactive_session_exact host self w) as (sh & Hrun & Hsh).
  split.
  - intros Hd%session_done_Exists. rewrite Hd in Hrun.
    eexists _, _. split; [exact Hrun|]. done.
  - intros Hd%session_done_false_Forall. rewrite Hd in Hrun.
    eexists _, _. split; [exact Hrun|]. simpl.
    split; [by apply session_rest_not_done|].
    split; [apply with_window_elem|]. split; [done|]. split; [by apply Hsh|done].
Qed.

(** X7: input that follows the first ESC has no effect: the session ends in
    the same tool and world as without it, and leaves it unread. *)
Theorem session_never_reads_past_esc (host : Host)
    (self : ImageInpaintingTool) (w : World)
    (pre : list Tick) (t : Tick) (post : list Tick) :
  Forall (λ t, tick_key t mod 256 ≠ 27) pre →
  tick_key t mod 256 = 27 →
  ∃ self' w',
    run_interactive_session host (self, set_input w (pre ++ [t]))
    = (Ok (), (self', w'))
    ∧ input w' = []
    ∧ run_interactive_session host (self, set_input w (pre ++ t :: post))
      = (Ok (), (self', set_input w' post)).
Proof.
  intros Hpre Ht.
  destruct (run_interactive_session_exact host self
              (set_input w (pre ++ [t]))) as (sh1 & H1 & _).
  destruct (run_interactive_session_exact host self
              (set_input w (pre ++ t :: post))) as (sh2 & H2 & _).
  simpl in H1, H2.
  destruct (session_prefix host pre t post (image self) Hpre Ht)
    as (Hd & Hr & Hl & Hi).
  destruct (session_prefix host pre t [] (image self) Hpre Ht)
    as (Hd' & Hr' & _ & _).
  rewrite Hd, Hr, Hl, Hi in H2. rewrite Hd', Hr' in H1.
  eexists _, _. split; [exact H1|]. split; [done|]. exact H2.
Qed.

Lemma session_never_reads_past_esc_witness :
  ∃ self' w',
    run_interactive_session (example_host true None)
      (mkTool "data/example.png" (black_image 4 4),
       set_input (fresh_world []) ([mkTick [] (-1)] ++ [mkTick [] 27]))
    = (Ok (), (self', w'))
    ∧ input w' = []
    ∧ run_interactive_session (example_host true None)
        (mkTool "data/example.png" (black_image 4 4),
         set_input (fresh_world [])
           ([mkTick [] (-1)] ++ mkTick [] 27
              :: [mkTick [mkMouseEvent 1 2 2 0] 27]))
      = (Ok (), (self', set_input w' [mkTick [mkMouseEvent 1 2 2 0] 27])).
Proof.
  apply (session_never_reads_past_esc (example_host true None)
           (mkTool "data/example.png" (black_image 4 4)) (fresh_world [])
           [mkTick [] (-1)] (mkTick [] 27)
           [mkTick [mkMouseEvent 1 2 2 0] 27]).
  - apply Forall_cons. split; [by vm_compute|constructor].
  - reflexivity.
Defined.

(** X8: mouse events delivered in the same poll as ESC are still handled
    before the loop exits: their clicks are inpainted and logged, then the
    session ends. *)
Theorem esc_tick_clicks_are_applied (host : Host)
    (self : ImageInpaintingTool) (w : World)
    (events : list MouseEvent) (key : Z) (rest : list Tick) :
  key mod 256 = 27 →
  input w = mkTick events key :: rest →
  run_interactive_session host (self, w)
  = (Ok (),
     (mkTool (image_path self) (foldl (click_image host) (image self) events),
      mkWorld (stdout w ++ ["Press ESC to exit."] ++ click_lines events
                 ++ ["Interactive session ended."])
              [] None None rest)).
Proof.
  intros Hkey Hin.
  destruct (run_interactive_session_exact host self w) as (sh & Hrun & _).
  rewrite Hin in Hrun. simpl in Hrun.
  rewrite is_esc_mod in Hrun. simpl in Hrun.
  rewrite bool_decide_true in Hrun by done.
  rewrite Hrun. by rewrite app_nil_r.
Qed.

Lemma esc_tick_clicks_are_applied_witness :
  run_interactive_session (example_host true None)
    (mkTool "data/example.png" (black_image 4 4),
     fresh_world [mkTick [mkMouseEvent 1 2 2 0] 283])
  = (Ok (),
     (mkTool "data/example.png" (black_image 4 4),
      mkWorld ["Press ESC to exit."; "Coordinates received: (2, 2)";
               "Inpainting applied at (2, 2) using 'telea' method.";
               "Interactive session ended."]
              [] None None [])).
Proof.
  apply (esc_tick_clicks_are_applied (example_host true None)
           (mkTool "data/example.png" (black_image 4 4))
           (fresh_world [mkTick [mkMouseEvent 1 2 2 0] 283])
           [mkMouseEvent 1 2 2 0] 283 []); reflexivity.
Defined.

(** X9: what a run of the script comes to.  When the image loads, the run
    ends normally exactly when ESC arrives, with no window left and the
    closing notice as the last line; without ESC it is left polling with all
    input consumed, showing the current image.  When loading raises, the run
    ends normally with the message printed and nothing else done.  Loading
    never waits for input. *)
Theorem main_outcome (host : Host) (w : World) :
  match _load_image host "data/example.png" with
  | Ok img =>
      (Exists (λ t, tick_key t mod 256 = 27) (input w) →
       ∃ w', main host w = (Ok (), w') ∧ windows w' = []
             ∧ last (stdout w') = Some "Interactive session ended.")
      ∧ (Forall (λ t, tick_key t mod 256 ≠ 27) (input w) →
         ∃ w', main host w = (Pending, w') ∧ input w' = []
               ∧ shown w' = Some (session_image host img (input w)))
  | Raise e => main host w = (Ok (), append_stdout w [str_exn e])
  | Pending => False
  end.
Proof.
  destruct (_load_image host "data/example.png") as [img|e|] eqn:Hload.
  - assert (Hbody : main_body host "data/example.png" w
              = with_self (mkTool "data/example.png" img)
                  (run_interactive_session host)
                  (append_stdout w ["Image loaded successfully."])).
    { unfold main_body.
      rewrite (bind_ok _ _ w (mkTool "data/example.png" img) w)
        by (unfold __init__, bind, lift_res; by rewrite Hload).
      by rewrite (bind_ok _ _ w ()
                    (append_stdout w ["Image loaded successfully."])). }
    destruct (run_interactive_session_exact host
                (mkTool "data/example.png" img)
                (append_stdout w ["Image loaded successfully."]))
      as (sh & Hrun & Hsh).
    simpl in Hrun, Hsh. unfold main, guarded, try_except. rewrite Hbody.
    unfold with_self. rewrite Hrun. split.
    + intros Hd%session_done_Exists. rewrite Hd. eexists. split; [done|].
      simpl. split; [done|]. by rewrite last_app, last_cons, last_snoc.
    + intros Hd%session_done_false_Forall. rewrite Hd. eexists.
      split; [done|]. simpl.
      split; [by apply session_rest_not_done|by apply Hsh].
  - unfold main. apply guarded_catches. by apply main_body_load_failure.
  - unfold _load_image in Hload.
    destruct (os_path_exists host _); simpl in Hload; [|done].
    by destruct (cv2_imread host _).
Qed.

(** X10: the loop looks at the low byte of the key code only: a pass breaks
    exactly when the code is 27 modulo 256, so key codes carrying modifier
    bits above the low byte still exit, and -1 (no key) does not. *)
Theorem loop_breaks_on_low_byte (host : Host) (self : ImageInpaintingTool)
    (w : World) (t : Tick) (rest : list Tick) :
  input w = t :: rest →
  fst (loop_body host (self, w)) = Ok (bool_decide (tick_key t mod 256 = 27)).
Proof.
  intros Hin. unfold loop_body.
  rewrite (bind_ok _ _ _ (image self) (self, w)) by reflexivity.
  rewrite (bind_ok _ _ _ ()
             (self, mkWorld (stdout w)
                      (with_window "Image Inpainting" (windows w))
                      (mouse_callback w) (Some (image self)) (input w)))
    by reflexivity.
  rewrite (bind_ok _ _ _ _ _
             (waitKey_tick host self
                (mkWorld (stdout w)
                   (with_window "Image Inpainting" (windows w))
                   (mouse_callback w) (Some (image self)) (input w))
                t rest 1 Hin)).
  simpl. by rewrite land_255_mod.
Qed.

Lemma loop_breaks_on_low_byte_witness :
  fst (loop_body (example_host true None)
         (mkTool "data/example.png" (black_image 4 4),
          fresh_world [mkTick [] 1048603]))
  = Ok true
  ∧ fst (loop_body (example_host true None)
           (mkTool "data/example.png" (black_image 4 4),
            fresh_world [mkTick [] (-1)]))
    = Ok false.
Proof.
  split.
  - apply (loop_breaks_on_low_byte (example_host true None)
             (mkTool "data/example.png" (black_image 4 4))
             (fresh_world [mkTick [] 1048603]) (mkTick [] 1048603) []).
    reflexivity.
  - apply (loop_breaks_on_low_byte (example_host true None)
             (mkTool "data/example.png" (black_image 4 4))
             (fresh_world [mkTick [] (-1)]) (mkTick [] (-1)) []).
    reflexivity.
Defined.

(** X11: when [cv2.inpaint] returns images of the size of its source, the
    session never changes the size of the tool's image, nor its path,
    however it ends. *)
Theorem session_keeps_image_size (host : Host) (self : ImageInpaintingTool)
    (w : World) (r : res unit) (self' : ImageInpaintingTool) (w' : World) :
  (∀ src mask radius flags,
     shape2 (cv2_inpaint host src mask radius flags) = shape2 src) →
  run_interactive_session host (self, w) = (r, (self', w')) →
  shape2 (image self') = shape2 (image self)
  ∧ image_path self' = image_path self.
Proof.
  intros Hsize Hrun.
  destruct (run_interactive_session_exact host self w) as (sh & Hex & _).
  rewrite Hex in Hrun.
  destruct (session_done (input w)); injection Hrun as _ <- _; simpl;
    (split; [by apply session_image_shape|done]).
Qed.

Lemma session_keeps_image_size_witness :
  shape2 (image (fst (snd (run_interactive_session (example_host true None)
                             (mkTool "data/example.png" (black_image 4 6),
                              fresh_world [mkTick [mkMouseEvent 1 2 2 0] 27])))))
  = shape2 (black_image 4 6)
  ∧ image_path (fst (snd (run_interactive_session (example_host true None)
                            (mkTool "data/example.png" (black_image 4 6),
                             fresh_world [mkTick [mkMouseEvent 1 2 2 0] 27]))))
    = "data/example.png".
Proof.
  apply (session_keeps_image_size (example_host true None)
           (mkTool "data/example.png" (black_image 4 6))
           (fresh_world [mkTick [mkMouseEvent 1 2 2 0] 27])
           (fst (run_interactive_session (example_host true None)
                   (mkTool "data/example.png" (black_image 4 6),
                    fresh_world [mkTick [mkMouseEvent 1 2 2 0] 27])))
           _
           (snd (snd (run_interactive_session (example_host true None)
                        (mkTool "data/example.png" (black_image 4 6),
                         fresh_world [mkTick [mkMouseEvent 1 2 2 0] 27]))))).
  - reflexivity.
  - vm_compute. reflexivity.
Defined.

(** X12: for a click inside the image and any non-negative radius, radius 0
    included, the mask marks the clicked pixel, so it is never empty. *)
Theorem clicked_pixel_is_marked (self : ImageInpaintingTool) (x y radius : Z) :
  0 ≤ radius →
  0 ≤ x < Z.of_nat (im_cols (image self)) →
  0 ≤ y < Z.of_nat (im_rows (image self)) →
  ∃ mask,
    _create_mask self (x, y) radius = Ok mask
    ∧ mask_at mask (Z.to_nat y) (Z.to_nat x) = Some 255
    ∧ (1 ≤ count_value 255 mask)%nat.
Proof.
  intros Hr Hx Hy. unfold _create_mask.
  destruct (circle_filled_ok (np.zeros (shape2 (image self))) (x, y) radius
              255 Hr) as (mask & Hm & _ & Hat).
  exists mask. split; [done|].
  assert (Hcell : mask_at mask (Z.to_nat y) (Z.to_nat x) = Some 255).
  { rewrite Hat. unfold shape2. rewrite mask_at_zeros by lia. simpl.
    unfold cv2.in_circle. simpl. rewrite !Z2Nat.id by lia.
    rewrite bool_decide_true by nia. done. }
  split; [done|]. by eapply count_value_at.
Qed.

Lemma clicked_pixel_is_marked_witness :
  ∃ mask,
    _create_mask (mkTool "a.png" (black_image 3 4)) (3, 0) 0 = Ok mask
    ∧ mask_at mask (Z.to_nat 0) (Z.to_nat 3) = Some 255
    ∧ (1 ≤ count_value 255 mask)%nat.
Proof.
  apply (clicked_pixel_is_marked (mkTool "a.png" (black_image 3 4)) 3 0 0);
    simpl; lia.
Defined.

(** X13: a click farther than the radius from the image, on any side, gives
    the all-zero mask: nothing is marked for inpainting. *)
Theorem far_click_marks_nothing (self : ImageInpaintingTool)
    (target_coords : Z * Z) (radius : Z) :
  0 ≤ radius →
  fst target_coords + radius < 0
  ∨ Z.of_nat (im_cols (image self)) - 1 < fst target_coords - radius
  ∨ snd target_coords + radius < 0
  ∨ Z.of_nat (im_rows (image self)) - 1 < snd target_coords - radius →
  _create_mask self target_coords radius = Ok (np.zeros (shape2 (image self)))
  ∧ count_value 255 (np.zeros (shape2 (image self))) = 0%nat.
Proof.
  intros Hr Hfar. split; [|apply count_value_zeros].
  unfold _create_mask, cv2.circle_filled. rewrite bool_decide_true by done.
  f_equal. unfold np.zeros, shape2; simpl. f_equal.
  apply list_eq. intros i. rewrite list_lookup_imap.
  destruct (decide (i < im_rows (image self))%nat) as [Hi|Hi].
  - rewrite lookup_replicate_2 by done. simpl. f_equal.
    apply list_eq. intros j. rewrite list_lookup_imap.
    destruct (decide (j < im_cols (image self))%nat) as [Hj|Hj].
    + rewrite lookup_replicate_2 by done. simpl.
      unfold cv2.in_circle. rewrite bool_decide_false; [done|]. nia.
    + by rewrite (proj1 (lookup_replicate_None _ _ _)) by lia.
  - by rewrite (proj1 (lookup_replicate_None _ _ _)) by lia.
Qed.

Lemma far_click_marks_nothing_witness :
  _create_mask (mkTool "a.png" (black_image 3 4)) (14, 1) 10
  = Ok (np.zeros (shape2 (black_image 3 4)))
  ∧ count_value 255 (np.zeros (shape2 (black_image 3 4))) = 0%nat.
Proof.
  apply (far_click_marks_nothing (mkTool "a.png" (black_image 3 4)) (14, 1) 10);
    [lia | right; left; simpl; lia].
Defined.
